(** * Clock synchronisation client (Cristian's algorithm): a shallow embedding

    Two client variants live in the repository:
    - [client.py]: class [ClockClient] (anchors [R_base]/[L_base] on the
      object itself, no lock), with [request_time_sync],
      [calculate_sync_interval] and the [run] loop;
    - [network.py]: class [DriftClock] (anchors guarded by a lock) and
      class [Client] with its own [calculate_sync_interval],
      [request_time_sync] and [sync_thread].

    Python floats are modelled by exact rationals [Q]; clock readings
    ([time.time()], [time.monotonic()]) are explicit inputs. *)

From Stdlib Require Import Arith QArith Qabs Lqa Lia List String Bool.
Import ListNotations.
Open Scope Q_scope.
Set Warnings "-register-all".

(** ** Python helpers *)

(** The comparison [a < b] of two floats. *)
Definition Qlt_bool (a b : Q) : bool := negb (Qle_bool b a).

(** [max(a, b)]: Python returns [a] unless [b > a]. *)
Definition py_max (a b : Q) : Q := if Qlt_bool a b then b else a.

(** [min(a, b)]: Python returns [a] unless [b < a]. *)
Definition py_min (a b : Q) : Q := if Qlt_bool b a then b else a.

(** Exceptions raised by the code paths of [request_time_sync]. *)
Inductive exn :=
| ConnectionRefusedError
| ConnectionResetError
| OSError
| UnicodeDecodeError
| JSONDecodeError
| KeyError
| TypeError
| TimeoutError.

(** The Python values [json.loads] can produce. An object is a dict: its
    list of bindings has distinct keys. *)
Inductive json :=
| JNum (q : Q)
| JBool (b : bool)
| JNull
| JStr (s : string)
| JList (l : list json)
| JObj (kvs : list (string * json)).

Fixpoint assoc (k : string) (kvs : list (string * json)) : option json :=
  match kvs with
  | [] => None
  | (k', v) :: rest => if String.eqb k k' then Some v else assoc k rest
  end.

(** [response[key]]: a dict lookup ([KeyError] when absent); subscripting
    anything else with a string raises [TypeError]. *)
Definition getitem (v : json) (key : string) : exn + json :=
  match v with
  | JObj kvs => match assoc key kvs with
                | Some x => inr x
                | None => inl KeyError
                end
  | _ => inl TypeError
  end.

(** [x + q] for a float [q]: numbers and booleans ([True] is [1]) add,
    other values raise [TypeError]. *)
Definition py_add (x : json) (q : Q) : exn + Q :=
  match x with
  | JNum n => inr (n + q)
  | JBool b => inr ((if b then 1 else 0) + q)
  | _ => inl TypeError
  end.

(** ** [client.py]: the [ClockClient] object *)

Record ClockClient := mkClockClient {
  rho : Q;
  epsilon_max : Q;
  duration : Q;
  R_base : Q;
  L_base : Q;
  measured_rtt : option Q
}.

(** [get_local_time], with [R_t] the reading of [time.time()]. *)
Definition get_local_time (c : ClockClient) (R_t : Q) : Q :=
  L_base c + (R_t - R_base c) * (1 + rho c).

(** [update_local_clock], with [now] the reading of [time.time()]:
    [R_base] is written first, then [L_base]. *)
Definition update_local_clock (c : ClockClient) (now new_local_time : Q)
  : ClockClient :=
  {| rho := rho c; epsilon_max := epsilon_max c; duration := duration c;
     R_base := now; L_base := new_local_time;
     measured_rtt := measured_rtt c |}.

Definition set_measured_rtt (c : ClockClient) (r : Q) : ClockClient :=
  {| rho := rho c; epsilon_max := epsilon_max c; duration := duration c;
     R_base := R_base c; L_base := L_base c;
     measured_rtt := Some r |}.

(** ** Mutation of [self] with exceptions

    A computation on [self] returns its result or the exception it raised,
    together with [self] as it is at that point: mutations made before an
    exception survive it, as they do in Python. *)
Definition M (A : Type) : Type := ClockClient -> (exn + A) * ClockClient.

Definition ret {A} (a : A) : M A := fun s => (inr a, s).
Definition bind {A B} (m : M A) (k : A -> M B) : M B :=
  fun s => match m s with
           | (inl e, s') => (inl e, s')
           | (inr a, s') => k a s'
           end.
Definition raise_or {A} (r : exn + A) : M A := fun s => (r, s).
Definition modify (f : ClockClient -> ClockClient) : M unit :=
  fun s => (inr tt, f s).

Notation "x <- m ;; k" := (bind m (fun x => k))
  (at level 61, m at next level, right associativity).
Notation "m ;;; k" := (bind m (fun _ => k))
  (at level 61, right associativity).

(** ** The socket exchange

    What [connect], [sendall], [recv(1024)] and [.decode('utf-8')] do on one
    attempt: one of them raises, or the decoded text arrives. *)
Inductive sock_io :=
| Connect_raises (e : exn)
| Send_raises (e : exn)
| Recv_raises (e : exn)
| Received (data : string).

Definition sock_exchange (io : sock_io) : exn + string :=
  match io with
  | Connect_raises e | Send_raises e | Recv_raises e => inl e
  | Received d => inr d
  end.

(** The environment of one call of [request_time_sync]: the readings of
    [time.time()] taken as [T0], as [T1], and inside [update_local_clock],
    and the outcome of the socket exchange. *)
Record SyncEnv := mkSyncEnv {
  T0 : Q;
  T1 : Q;
  T_rebase : Q;
  io : sock_io
}.

Section RequestTimeSync.

(** [json.loads] is library code: a parameter of the development. *)
Variable json_loads : string -> exn + json.

(** The body of the [try] block of [ClockClient.request_time_sync]. *)
Definition request_time_sync_body (env : SyncEnv) : M Q :=
  response_data <- raise_or (sock_exchange (io env)) ;;
  response <- raise_or (json_loads response_data) ;;
  server_time <- raise_or (getitem response "server_time") ;;
  let RTT := T1 env - T0 env in
  estimated_time <- raise_or (py_add server_time (RTT / 2)) ;;
  modify (fun c => set_measured_rtt c RTT) ;;;
  modify (fun c => update_local_clock c (T_rebase env) estimated_time) ;;;
  ret RTT.

(** [ClockClient.request_time_sync]: [except Exception] turns every
    exception into the result [None]. *)
Definition request_time_sync (c : ClockClient) (env : SyncEnv)
  : ClockClient * option Q :=
  match request_time_sync_body env c with
  | (inl _, c') => (c', None)
  | (inr rtt, c') => (c', Some rtt)
  end.

End RequestTimeSync.

(** [ClockClient.calculate_sync_interval]: the network error is half of
    the assumed maximal network delay, [1.5 * measured_rtt] once an RTT has
    been measured, [0.001] before. *)
Definition max_network_delay (c : ClockClient) : Q :=
  match measured_rtt c with
  | Some r => r * (3 # 2)
  | None => 1 # 1000
  end.

Definition network_error (c : ClockClient) : Q := max_network_delay c / 2.

Definition calculate_sync_interval (c : ClockClient) : Q :=
  let ne := network_error c in
  if Qlt_bool (Qabs (rho c)) (1 # 1000000000000) then duration c
  else
    let available_error := epsilon_max c - ne in
    let sync_interval :=
      if Qle_bool available_error 0 then 1 # 10
      else (available_error / Qabs (rho c)) * (8 # 10) in
    py_max (1 # 10) (py_min sync_interval (duration c)).

(** ** [network.py]: [DriftClock] and the interval of [Client] *)

Record DriftClock := mkDriftClock {
  dc_rho : Q;
  dc_R_base : Q;
  dc_L_base : Q
}.

(** [DriftClock.get_local_time], [R_t] the reading of [time.monotonic()]. *)
Definition dc_get_local_time (d : DriftClock) (R_t : Q) : Q :=
  let elapsed := R_t - dc_R_base d in
  dc_L_base d + elapsed * (1 + dc_rho d).

(** [DriftClock.set_local_time], [now] the reading of [time.monotonic()]. *)
Definition dc_set_local_time (d : DriftClock) (now new_local_time : Q)
  : DriftClock :=
  {| dc_rho := dc_rho d; dc_R_base := now; dc_L_base := new_local_time |}.

(** [Client.calculate_sync_interval] of [network.py]. *)
Definition client_calculate_sync_interval (rho epsilon_max duration : Q) : Q :=
  if Qlt_bool (Qabs rho) (1 # 10000000000) then 5
  else
    let sync_interval := epsilon_max / (2 * Qabs rho) in
    let min_interval := 1 # 2 in
    let max_interval := py_max 10 (duration / 2) in
    py_max min_interval (py_min sync_interval max_interval).

(** ** [client.py]: the [run] loop

    The state of [run] after its initial synchronisation: the client, the
    current [sync_interval] and [last_sync_local_time]. *)
Record RunState := mkRunState {
  rs_client : ClockClient;
  sync_interval : Q;
  last_sync_local_time : Q
}.

(** The readings one iteration of the [while] loop takes: [time.time()] in
    the loop condition, inside [get_local_time] for [current_local_time],
    the environment of [request_time_sync], and [time.time()] inside the
    [get_local_time] that follows it. The [time.sleep(0.1)] that ends the
    iteration shows in the readings of the next one. *)
Record Tick := mkTick {
  tk_loop : Q;
  tk_local : Q;
  tk_sync : SyncEnv;
  tk_after : Q
}.

Section RunLoop.

Variable json_loads : string -> exn + json.

(** [run] up to the loop: initial sync, interval, local time of the sync. *)
Definition run_start (c : ClockClient) (env : SyncEnv) (t_after : Q)
  : RunState :=
  let (c1, _) := request_time_sync json_loads c env in
  let si := calculate_sync_interval c1 in
  mkRunState c1 si (get_local_time c1 t_after).

(** The body of the loop; the second component is [Some r] when
    [request_time_sync] was called and returned [r]. *)
Definition loop_body (st : RunState) (tk : Tick)
  : RunState * option (option Q) :=
  let c := rs_client st in
  let current_local_time := get_local_time c (tk_local tk) in
  if Qle_bool (sync_interval st) (current_local_time - last_sync_local_time st)
  then
    let (c1, r) := request_time_sync json_loads c (tk_sync tk) in
    let last' := get_local_time c1 (tk_after tk) in
    let new_interval := calculate_sync_interval c1 in
    let si' := if Qlt_bool (1 # 10) (Qabs (new_interval - sync_interval st))
               then new_interval else sync_interval st in
    (mkRunState c1 si' last', Some r)
  else (st, None).

(** The [while time.time() - real_start_time < self.duration] loop over a
    list of iterations; the log lists what each iteration did. *)
Fixpoint run_loop (real_start_time : Q) (st : RunState) (ticks : list Tick)
  : RunState * list (option (option Q)) :=
  match ticks with
  | [] => (st, [])
  | tk :: rest =>
      if Qlt_bool (tk_loop tk - real_start_time) (duration (rs_client st)) then
        let (st', a) := loop_body st tk in
        let (stf, log) := run_loop real_start_time st' rest in
        (stf, a :: log)
      else (st, [])
  end.

(** The states [run] goes through. *)
Inductive reachable : RunState -> Prop :=
| reach_start c env t_after : reachable (run_start c env t_after)
| reach_step st tk : reachable st -> reachable (fst (loop_body st tk)).

End RunLoop.

(** The number of iterations the loop condition admits. *)
Fixpoint iterations (real_start_time d : Q) (ticks : list Tick) : nat :=
  match ticks with
  | [] => 0
  | tk :: rest =>
      if Qlt_bool (tk_loop tk - real_start_time) d
      then S (iterations real_start_time d rest) else 0
  end.

(** ** Blocking [recv]

    Neither client calls [settimeout], so its socket has the default
    timeout [socket.getdefaulttimeout()], which is [None]: blocking without
    bound. *)
Definition default_timeout : option nat := None.
Definition client_sock_timeout : option nat := default_timeout.

(** The peer of [recv(1024)], counted in ticks of waiting. *)
Inductive peer :=
| Replies_after (k : nat) (data : string)
| Never_replies.

Inductive recv_state :=
| Waiting (waited : nat)
| Returned (r : exn + string).

Definition recv_tick (timeout : option nat) (p : peer) (st : recv_state)
  : recv_state :=
  match st with
  | Returned r => Returned r
  | Waiting w =>
      let timed := match timeout with
                   | Some t => if Nat.leb t w then Returned (inl TimeoutError)
                               else Waiting (S w)
                   | None => Waiting (S w)
                   end in
      match p with
      | Replies_after k d => if Nat.leb k w then Returned (inr d) else timed
      | Never_replies => timed
      end
  end.

Fixpoint recv_run (timeout : option nat) (p : peer) (n : nat) (st : recv_state)
  : recv_state :=
  match n with
  | O => st
  | S n' => recv_run timeout p n' (recv_tick timeout p st)
  end.

(** ** Threads on the anchor pair

    The sampling thread and the sync thread run the bytecode of
    [get_local_time] and [update_local_clock] (or [set_local_time]); the
    interpreter may switch threads between any two attribute accesses. Only
    the accesses to the shared pair and to the lock are kept. *)
Module Interleaving.

Inductive instr :=
| Acquire
| Release
| LoadL            (** read [self.L_base] *)
| LoadR            (** read [self.R_base] *)
| StoreL (v : Q)   (** [self.L_base = v] *)
| StoreR (v : Q).  (** [self.R_base = v] *)

Record shared := mkShared {
  sh_R_base : Q;
  sh_L_base : Q;
  holder : option nat
}.

(** A thread: what is left of its code, and what it has read. *)
Record thread := mkThread {
  code : list instr;
  read_L : option Q;
  read_R : option Q
}.

(** One atomic step of thread [id]; [None] when it has finished or waits
    for the lock. *)
Definition step (id : nat) (sh : shared) (th : thread)
  : option (shared * thread) :=
  match code th with
  | [] => None
  | i :: rest =>
      let th' r_L r_R := mkThread rest r_L r_R in
      match i with
      | Acquire =>
          match holder sh with
          | None => Some (mkShared (sh_R_base sh) (sh_L_base sh) (Some id),
                          th' (read_L th) (read_R th))
          | Some _ => None
          end
      | Release => Some (mkShared (sh_R_base sh) (sh_L_base sh) None,
                         th' (read_L th) (read_R th))
      | LoadL => Some (sh, th' (Some (sh_L_base sh)) (read_R th))
      | LoadR => Some (sh, th' (read_L th) (Some (sh_R_base sh)))
      | StoreL v => Some (mkShared (sh_R_base sh) v (holder sh),
                          th' (read_L th) (read_R th))
      | StoreR v => Some (mkShared v (sh_L_base sh) (holder sh),
                          th' (read_L th) (read_R th))
      end
  end.

(** Thread [0] reads the clock, thread [1] rebases it. *)
Record config := mkConfig {
  mem : shared;
  reader : thread;
  writer : thread
}.

Definition step_config (id : nat) (cf : config) : option config :=
  match id with
  | O => match step O (mem cf) (reader cf) with
         | Some (sh, th) => Some (mkConfig sh th (writer cf))
         | None => None
         end
  | S O => match step (S O) (mem cf) (writer cf) with
         | Some (sh, th) => Some (mkConfig sh (reader cf) th)
         | None => None
         end
  | _ => None
  end.

(** A schedule lists which thread makes each step. *)
Fixpoint run (cf : config) (sched : list nat) : option config :=
  match sched with
  | [] => Some cf
  | id :: rest => match step_config id cf with
                  | Some cf' => run cf' rest
                  | None => None
                  end
  end.

Definition finished (cf : config) : bool :=
  match code (reader cf), code (writer cf) with
  | [], [] => true
  | _, _ => false
  end.

(** The reader saw the pair [(R, L)] of neither before nor after the
    rebase. *)
Definition torn (R0 L0 R1 L1 : Q) (cf : config) : bool :=
  match read_R (reader cf), read_L (reader cf) with
  | Some r, Some l =>
      negb ((Qeq_bool r R0 && Qeq_bool l L0) || (Qeq_bool r R1 && Qeq_bool l L1))
  | _, _ => false
  end.

(** [ClockClient.get_local_time] evaluates
    [self.L_base + (R_t - self.R_base) * (1 + self.rho)] from left to
    right; [update_local_clock] writes [R_base], then [L_base]. No lock. *)
Definition client_reader : list instr := [LoadL; LoadR].
Definition client_writer (now v : Q) : list instr := [StoreR now; StoreL v].

(** [DriftClock]: both methods run under [with self.lock];
    [set_local_time] reads [old_L], writes [L_base], then [R_base]. *)
Definition drift_reader : list instr := [Acquire; LoadR; LoadL; Release].
Definition drift_writer (now v : Q) : list instr :=
  [Acquire; LoadL; StoreL v; StoreR now; Release].

Definition start (R0 L0 : Q) (rd wr : list instr) : config :=
  mkConfig (mkShared R0 L0 None) (mkThread rd None None)
           (mkThread wr None None).

Fixpoint all_schedules (n : nat) : list (list nat) :=
  match n with
  | O => [[]]
  | S m => map (cons 0%nat) (all_schedules m) ++
           map (cons 1%nat) (all_schedules m)
  end.

Definition total (cf : config) : nat :=
  List.length (code (reader cf)) + List.length (code (writer cf)).

Definition never_torn (R0 L0 R1 L1 : Q) (cf0 : config) (sched : list nat)
  : bool :=
  match run cf0 sched with
  | Some cf => negb (finished cf && torn R0 L0 R1 L1 cf)
  | None => true
  end.

End Interleaving.


(** ** [network.py]: the [Client] object and its threads *)

Record NetClient := mkNetClient {
  clock : DriftClock;
  actual_time_base : Q;
  actual_time_mono_base : Q
}.

(** [Client.update_actual_time_base], [now] the reading of
    [time.monotonic()]. *)
Definition update_actual_time_base (c : NetClient) (now server_time : Q)
  : NetClient :=
  {| clock := clock c; actual_time_base := server_time;
     actual_time_mono_base := now |}.

(** The readings of [time.monotonic()] one call of
    [Client.request_time_sync] takes ([T0], [T1], inside
    [set_local_time], inside [update_actual_time_base]) and the outcome of
    the socket exchange. *)
Record NetSyncEnv := mkNetSyncEnv {
  nT0 : Q;
  nT1 : Q;
  nT_clock : Q;
  nT_actual : Q;
  nio : sock_io
}.

Section NetClientCode.

Variable json_loads : string -> exn + json.

(** [Client.request_time_sync]: every statement that can raise comes
    before the two updates, so each exception leaves [self] as it was;
    [except Exception] returns [False]. *)
Definition client_request_time_sync (c : NetClient) (env : NetSyncEnv)
  : NetClient * bool :=
  match sock_exchange (nio env) with
  | inl _ => (c, false)
  | inr response =>
      match json_loads response with
      | inl _ => (c, false)
      | inr data =>
          match getitem data "server_time" with
          | inl _ => (c, false)
          | inr T_server =>
              let RTT := nT1 env - nT0 env in
              match py_add T_server (RTT / 2) with
              | inl _ => (c, false)
              | inr estimated_server_time =>
                  let c1 := {| clock := dc_set_local_time (clock c)
                                          (nT_clock env) estimated_server_time;
                               actual_time_base := actual_time_base c;
                               actual_time_mono_base := actual_time_mono_base c |} in
                  (update_actual_time_base c1 (nT_actual env)
                     estimated_server_time, true)
              end
          end
      end
  end.

(** The [while self.running] loop of [Client.sync_thread] ([running]
    stays true), over the readings of [time.monotonic()] it takes, each with
    the environment of the [request_time_sync] of that iteration. The
    result: the client, [sync_count], and the readings at which a sync was
    performed. *)
Fixpoint sync_loop (sync_interval duration start_time : Q) (c : NetClient)
  (sync_count : nat) (next_sync : Q) (ticks : list (Q * NetSyncEnv))
  : NetClient * nat * list Q :=
  match ticks with
  | [] => (c, sync_count, [])
  | (current_time, env) :: rest =>
      if Qle_bool duration (current_time - start_time) then (c, sync_count, [])
      else if Qle_bool next_sync current_time then
        let sync_count' := S sync_count in
        let c' := fst (client_request_time_sync c env) in
        let next_sync' :=
          start_time + inject_Z (Z.of_nat sync_count') * sync_interval in
        let '(cf, n, log) :=
          sync_loop sync_interval duration start_time c' sync_count' next_sync'
            rest in
        (cf, n, current_time :: log)
      else sync_loop sync_interval duration start_time c sync_count next_sync
             rest
  end.

(** [Client.sync_thread]: the initial sync, then the loop from
    [start_time]. *)
Definition sync_thread (sync_interval duration : Q) (c : NetClient)
  (env0 : NetSyncEnv) (start_time : Q) (ticks : list (Q * NetSyncEnv))
  : NetClient * nat * list Q :=
  let c1 := fst (client_request_time_sync c env0) in
  sync_loop sync_interval duration start_time c1 1 (start_time + sync_interval)
    ticks.

End NetClientCode.

(** Python's [int(x)] on a float: truncation toward zero. *)
Definition py_int (x : Q) : Z := Z.quot (Qnum x) (Zpos (Qden x)).

(** One iteration of the loop of [Client.logging_thread]: the reading of
    [time.monotonic()] in the loop condition, the one for [elapsed], and
    the one inside [get_local_time]. *)
Record LogTick := mkLogTick {
  lt_cond : Q;
  lt_elapsed : Q;
  lt_local : Q
}.

(** The loop of [Client.logging_thread] ([running] stays true); the rows
    [(actual_time, local_time)] it writes, in order. *)
Fixpoint net_log_loop (d : DriftClock) (duration start_wall start_mono : Q)
  (last_logged : Z) (ticks : list LogTick) : list (Q * Q) :=
  match ticks with
  | [] => []
  | tk :: rest =>
      if Qlt_bool (lt_cond tk - start_mono) duration then
        let elapsed := py_int (lt_elapsed tk - start_mono) in
        if Z.ltb last_logged elapsed then
          let actual_time := start_wall + inject_Z elapsed in
          let local_time := dc_get_local_time d (lt_local tk) in
          (actual_time, local_time)
            :: net_log_loop d duration start_wall start_mono elapsed rest
        else net_log_loop d duration start_wall start_mono last_logged rest
      else []
  end.

(** [Client.logging_thread] starts with [last_logged = 0]. *)
Definition net_logging_thread (d : DriftClock) (duration start_wall start_mono : Q)
  (ticks : list LogTick) : list (Q * Q) :=
  net_log_loop d duration start_wall start_mono 0 ticks.

(** ** [client.py]: the sample buffer and the CSV rows *)

Record LogState := mkLogState {
  log_buffer : list (Q * Q);
  csv_rows : list (string * string)
}.

Section LogBuffer.

(** [f"{x:.3f}"] is library formatting: a parameter. *)
Variable fmt3 : Q -> string.

Definition fmt_row (e : Q * Q) : string * string := (fmt3 (fst e), fmt3 (snd e)).

(** [ClockClient.log_time]: append [(actual_time, local_time)] under the
    buffer lock. *)
Definition log_time (st : LogState) (actual_time local_time : Q) : LogState :=
  {| log_buffer := log_buffer st ++ [(actual_time, local_time)];
     csv_rows := csv_rows st |}.

(** [ClockClient.flush_logs]: nothing when the buffer is empty; otherwise
    copy and clear the buffer, then write the copied entries in order. *)
Definition flush_logs (st : LogState) : LogState :=
  match log_buffer st with
  | [] => st
  | _ => {| log_buffer := [];
            csv_rows := csv_rows st ++ map fmt_row (log_buffer st) |}
  end.

(** The operations the logging and flusher threads apply to the buffer,
    each one under its locks. *)
Inductive log_op :=
| Op_log (actual_time local_time : Q)
| Op_flush.

Definition apply_op (st : LogState) (op : log_op) : LogState :=
  match op with
  | Op_log a l => log_time st a l
  | Op_flush => flush_logs st
  end.

Definition apply_ops (st : LogState) (ops : list log_op) : LogState :=
  fold_left apply_op ops st.

(** The samples the operations log, in order. *)
Fixpoint logged (ops : list log_op) : list (Q * Q) :=
  match ops with
  | [] => []
  | Op_log a l :: rest => (a, l) :: logged rest
  | Op_flush :: rest => logged rest
  end.

End LogBuffer.

(** ** [client.py]: catching up in [logging_thread]

    [reads k] are the readings of [time.time()] of the [log_time] call made
    when [expected_log_count = k]: the one for [actual_time] and the one
    inside [get_local_time]. [stop] is whether the stop event is set. *)
Fixpoint catch_up (c : ClockClient) (should_have_logged : Z) (stop : bool)
  (reads : Z -> Q * Q) (fuel : nat) (expected_log_count : Z)
  : Z * list (Q * Q) :=
  match fuel with
  | O => (expected_log_count, [])
  | S f =>
      if Z.ltb expected_log_count should_have_logged && negb stop then
        let '(a, r) := reads expected_log_count in
        let '(e, more) := catch_up c should_have_logged stop reads f
                            (expected_log_count + 1) in
        (e, (a, get_local_time c r) :: more)
      else (expected_log_count, [])
  end.

(** One log tick of [logging_thread]: [log_time], the count incremented,
    then the [while] loop that logs until [should_have_logged]; it runs at
    most [should_have_logged - expected_log_count] times, which is the fuel.
    [aligned_wall_start] is [math.ceil] of the start reading, [wall_now]
    the reading after the first [log_time]. *)
Definition log_tick (c : ClockClient) (aligned_wall_start : Z) (stop : bool)
  (reads : Z -> Q * Q) (wall_now : Q) (expected_log_count : Z)
  : Z * list (Q * Q) :=
  let '(a, r) := reads expected_log_count in
  let expected1 := (expected_log_count + 1)%Z in
  let should_have_logged :=
    (py_int (wall_now - inject_Z aligned_wall_start) + 1)%Z in
  let '(e, more) := catch_up c should_have_logged stop reads
                      (Z.to_nat (should_have_logged - expected1)) expected1 in
  (e, (a, get_local_time c r) :: more).

(** ** [time_server.py] *)

(** How handling one connection ends: the reply sent (if any), or an
    exception that escapes the loop and stops the server. *)
Inductive srv_exn :=
| AttributeError
| Uncaught (e : exn).

Inductive srv_result :=
| Srv_ignored
| Srv_replied (response : json)
| Srv_crashed (e : srv_exn).

Section TimeServer.

(** [json.loads(data.decode())]: library code, a parameter. *)
Variable decode_loads : string -> exn + json.

(** The body of the [while True] loop for one accepted connection;
    [data] is what [conn.recv(1024)] returned and [now] the reading of
    [time.time()]. Only [JSONDecodeError] and [UnicodeDecodeError] are
    caught; [message.get] on a non-dict raises [AttributeError]. *)
Definition handle_connection (data : string) (now : Q) : srv_result :=
  if String.eqb data "" then Srv_ignored
  else
    match decode_loads data with
    | inl JSONDecodeError | inl UnicodeDecodeError => Srv_ignored
    | inl e => Srv_crashed (Uncaught e)
    | inr message =>
        match message with
        | JObj kvs =>
            match assoc "type" kvs with
            | Some (JStr t) =>
                if String.eqb t "time_req" then
                  Srv_replied (JObj [("type"%string, JStr "time_resp");
                                     ("server_time"%string, JNum now)])
                else Srv_ignored
            | _ => Srv_ignored
            end
        | _ => Srv_crashed AttributeError
        end
    end.

(** The accept loop over the connections [(data, now)]: what each handled
    connection got, up to the first escaping exception. *)
Fixpoint serve (conns : list (string * Q)) : list srv_result :=
  match conns with
  | [] => []
  | (data, now) :: rest =>
      match handle_connection data now with
      | Srv_crashed e => [Srv_crashed e]
      | r => r :: serve rest
      end
  end.

End TimeServer.

(** The outcome of one attempt at [socket], [setsockopt], [bind] and
    [listen]. *)
Inductive bind_outcome :=
| Bind_ok
| Bind_EADDRINUSE
| Bind_other_oserror.

Inductive bind_result :=
| Listening (attempt : nat)
| Bind_failed (attempt : nat)
| No_socket.

Definition max_attempts : nat := 5.

(** The [for attempt in range(1, max_attempts + 1)] loop of
    [run_time_server]: [No_socket] would be a loop that ends without
    [break] or [raise]. *)
Fixpoint bind_loop (try_bind : nat -> bind_outcome) (attempts : list nat)
  : bind_result :=
  match attempts with
  | [] => No_socket
  | attempt :: rest =>
      match try_bind attempt with
      | Bind_ok => Listening attempt
      | Bind_EADDRINUSE =>
          if Nat.ltb attempt max_attempts then bind_loop try_bind rest
          else Bind_failed attempt
      | Bind_other_oserror => Bind_failed attempt
      end
  end.

Definition run_time_server_bind (try_bind : nat -> bind_outcome) : bind_result :=
  bind_loop try_bind (seq 1 max_attempts).

(** ** Data of the examples and statements of the claims *)

(** The budget inequality as the claim states it. *)
Definition interval_within_budget (c : ClockClient) : Prop :=
  0 < epsilon_max c ->
  (network_error c < epsilon_max c ->
   Qabs (rho c) * calculate_sync_interval c + network_error c <= epsilon_max c)
  /\ (epsilon_max c <= network_error c ->
      calculate_sync_interval c == 1 # 10).

Definition c1_client : ClockClient :=
  {| rho := 1; epsilon_max := 1 # 1000; duration := 10;
     R_base := 0; L_base := 0; measured_rtt := None |}.

(** What a successful run leaves: the returned RTT is [T1 - T0] and the
    clock is rebased, at [T_rebase], to [server_time + RTT / 2], with
    Python's [+] on the value under ["server_time"] of the parsed reply. *)
Definition rebased_to_estimate (json_loads : string -> exn + json)
  (env : SyncEnv) (c' : ClockClient) (r : Q) : Prop :=
  r = T1 env - T0 env /\
  exists data response server_time,
    sock_exchange (io env) = inr data /\
    json_loads data = inr response /\
    getitem response "server_time" = inr server_time /\
    py_add server_time (r / 2) = inr (L_base c') /\
    R_base c' = T_rebase env.

Definition c2_env : SyncEnv :=
  {| T0 := 100; T1 := 100 + (1 # 1000); T_rebase := 100 + (1 # 1000);
     io := Received "time_resp 250" |}.

(** A [json.loads] for the examples: every text parses to the reply
    [{"type": "time_resp", "server_time": 250}]. *)
Definition c2_json_loads (_ : string) : exn + json :=
  inr (JObj [("type"%string, JStr "time_resp"); ("server_time"%string, JNum 250)]).

Definition c2_client : ClockClient :=
  {| rho := 1 # 1000; epsilon_max := 1 # 20; duration := 20;
     R_base := 0; L_base := 0; measured_rtt := None |}.

Definition c3_env : SyncEnv :=
  {| T0 := 100; T1 := 100; T_rebase := 100;
     io := Connect_raises ConnectionRefusedError |}.

(** The claim of C8 on the returned value: the one-way estimate [RTT / 2]. *)
Definition returns_one_way_delay : Prop :=
  forall json_loads c env c' r,
    request_time_sync json_loads c env = (c', Some r) ->
    r == (T1 env - T0 env) / 2.

Definition c8_env : SyncEnv :=
  {| T0 := 0; T1 := 2; T_rebase := 2; io := Received "time_resp 250" |}.

Definition with_duration (c : ClockClient) (d : Q) : ClockClient :=
  {| rho := rho c; epsilon_max := epsilon_max c; duration := d;
     R_base := R_base c; L_base := L_base c;
     measured_rtt := measured_rtt c |}.

(** The claim of C7: below the threshold the interval does not depend on
    the duration. *)
Definition driftless_interval_fixed : Prop :=
  forall c d1 d2, Qabs (rho c) < 1 # 1000000000000 ->
    calculate_sync_interval (with_duration c d1) =
    calculate_sync_interval (with_duration c d2).

Definition c7_client : ClockClient :=
  {| rho := 0; epsilon_max := 1; duration := 10;
     R_base := 0; L_base := 0; measured_rtt := None |}.

(** The claim of C9: some bound [B] on the waiting after which [recv]
    has returned (data or a timeout), whatever the peer does. *)
Definition recv_bounded : Prop :=
  exists B, forall p, exists r,
    recv_run client_sock_timeout p B (Waiting 0) = Returned r.

(** The interval in force never differs by more than [0.1] from the one
    the current client state gives. *)
Definition interval_settled (st : RunState) : Prop :=
  Qabs (calculate_sync_interval (rs_client st) - sync_interval st) <= 1 # 10.

(** The timing C10 claims: after an initial synchronisation that succeeds
    and a failed attempt, an attempt fires as soon as the local time since
    the last successful synchronisation reaches the interval. *)
Definition next_attempt_from_last_success : Prop :=
  forall json_loads c env t_after tk1 tk2 st1,
    snd (request_time_sync json_loads c env) <> None ->
    loop_body json_loads (run_start json_loads c env t_after) tk1 =
      (st1, Some None) ->
    (snd (loop_body json_loads st1 tk2) <> None <->
     sync_interval (run_start json_loads c env t_after) <=
       get_local_time (rs_client st1) (tk_local tk2) -
       last_sync_local_time (run_start json_loads c env t_after)).

Definition c10_client : ClockClient :=
  {| rho := 1 # 100; epsilon_max := 1 # 20; duration := 20;
     R_base := 0; L_base := 0; measured_rtt := None |}.

Definition c10_env0 : SyncEnv :=
  {| T0 := 0; T1 := 1 # 1000; T_rebase := 1 # 1000;
     io := Received "time_resp 250" |}.

(** The attempt at [4.1] s meets a refused connection. *)
Definition c10_tick1 : Tick :=
  {| tk_loop := 41 # 10; tk_local := 41 # 10; tk_after := 41 # 10;
     tk_sync := {| T0 := 41 # 10; T1 := 41 # 10; T_rebase := 41 # 10;
                   io := Connect_raises ConnectionRefusedError |} |}.

Definition c10_tick2 : Tick :=
  {| tk_loop := 42 # 10; tk_local := 42 # 10; tk_after := 42 # 10;
     tk_sync := {| T0 := 42 # 10; T1 := 42 # 10; T_rebase := 42 # 10;
                   io := Received "time_resp 250" |} |}.

Definition c10_start : RunState :=
  run_start c2_json_loads c10_client c10_env0 (1 # 1000).

(** * Properties *)

(** ** Comparison lemmas *)

Lemma Qlt_bool_true a b : Qlt_bool a b = true <-> a < b.
Proof.
  unfold Qlt_bool. rewrite negb_true_iff. split; intro H.
  - apply Qnot_le_lt. intro H'. apply Qle_bool_iff in H'. congruence.
  - destruct (Qle_bool b a) eqn:E; [|reflexivity].
    apply Qle_bool_iff in E. exfalso. apply (Qlt_not_le _ _ H E).
Qed.

Lemma Qlt_bool_false a b : Qlt_bool a b = false <-> b <= a.
Proof.
  unfold Qlt_bool. rewrite negb_false_iff. apply Qle_bool_iff.
Qed.

Lemma Qle_bool_false a b : Qle_bool a b = false <-> b < a.
Proof.
  split; intro H.
  - apply Qnot_le_lt. intro H'. apply Qle_bool_iff in H'. congruence.
  - destruct (Qle_bool a b) eqn:E; [|reflexivity].
    apply Qle_bool_iff in E. exfalso. apply (Qlt_not_le _ _ H E).
Qed.

Ltac qcase E :=
  match goal with
  | |- context [Qlt_bool ?a ?b] =>
      destruct (Qlt_bool a b) eqn:E;
      [apply Qlt_bool_true in E | apply Qlt_bool_false in E]
  | |- context [Qle_bool ?a ?b] =>
      destruct (Qle_bool a b) eqn:E;
      [apply Qle_bool_iff in E | apply Qle_bool_false in E]
  end.

(** ** C1: the interval against the error budget *)

(** C1 (counterexample): with [rho = 1], [epsilon_max = 0.001] and no RTT
    measured yet ([u = 0.0005 < epsilon_max]), the raw interval [0.0004] is
    raised to the floor [0.1], and [|rho| * 0.1 + u = 0.1005 > 0.001]. *)
Lemma calculate_sync_interval_budget_counterexample :
  ~ (forall c, interval_within_budget c).
Proof.
  intro H. destruct (H c1_client) as [H1 _]; [vm_compute; reflexivity|].
  assert (Hu : network_error c1_client < epsilon_max c1_client)
    by (vm_compute; reflexivity).
  specialize (H1 Hu). vm_compute in H1. apply H1. reflexivity.
Qed.

Lemma py_max_cases a b : (a < b /\ py_max a b = b) \/ (b <= a /\ py_max a b = a).
Proof. unfold py_max. qcase E; [left|right]; auto. Qed.

Lemma py_min_le_l a b : py_min a b <= a.
Proof. unfold py_min. qcase E; [apply Qlt_le_weak; exact E | apply Qle_refl]. Qed.

(** C1 (amended): below the drift threshold [1e-12] the interval is the run
    duration; otherwise, when the network error [u] reaches the budget the
    interval is the floor [0.1], and when it stays below the budget either
    [|rho| * interval + u <= epsilon_max] or the interval was raised to
    the floor [0.1]. *)
Theorem calculate_sync_interval_budget (c : ClockClient) :
  (Qabs (rho c) < 1 # 1000000000000 -> calculate_sync_interval c = duration c)
  /\ (1 # 1000000000000 <= Qabs (rho c) ->
      epsilon_max c <= network_error c -> calculate_sync_interval c = 1 # 10)
  /\ (1 # 1000000000000 <= Qabs (rho c) ->
      network_error c < epsilon_max c ->
      Qabs (rho c) * calculate_sync_interval c + network_error c <= epsilon_max c
      \/ calculate_sync_interval c = 1 # 10).
Proof.
  unfold calculate_sync_interval.
  split; [|split]; intros Hr.
  - qcase E; [reflexivity|]. exfalso. apply (Qlt_not_le _ _ Hr E).
  - intros Hu. qcase E; [exfalso; apply (Qlt_not_le _ _ E Hr)|].
    qcase E2.
    + unfold py_min. qcase E3; unfold py_max; qcase E4; try reflexivity;
        exfalso; lra.
    + exfalso. lra.
  - intros Hu. qcase E; [exfalso; apply (Qlt_not_le _ _ E Hr)|].
    qcase E2; [exfalso; lra|].
    set (A := epsilon_max c - network_error c) in *.
    set (s := A / Qabs (rho c) * (8 # 10)).
    destruct (py_max_cases (1 # 10) (py_min s (duration c))) as [[_ ->]|[_ ->]];
      [left|right; reflexivity].
    assert (Hpos : 0 < Qabs (rho c)) by lra.
    assert (Hs : Qabs (rho c) * s == (8 # 10) * A).
    { unfold s. field. intro H0. rewrite H0 in Hpos. discriminate Hpos. }
    assert (Hm : Qabs (rho c) * py_min s (duration c) <= Qabs (rho c) * s).
    { rewrite (Qmult_comm _ (py_min _ _)), (Qmult_comm _ s).
      apply Qmult_le_compat_r; [apply py_min_le_l | lra]. }
    unfold A in *. lra.
Qed.

Lemma calculate_sync_interval_budget_witness :
  Qabs (rho c1_client) * calculate_sync_interval c1_client
    + network_error c1_client <= epsilon_max c1_client
  \/ calculate_sync_interval c1_client = 1 # 10.
Proof.
  apply (proj2 (proj2 (calculate_sync_interval_budget c1_client)));
    vm_compute; try reflexivity; discriminate.
Defined.

(** ** C2, C3, C8: one run of [request_time_sync] *)

Lemma sync_success_result json_loads c env c' r :
  request_time_sync json_loads c env = (c', Some r) ->
  rebased_to_estimate json_loads env c' r.
Proof.
  unfold request_time_sync, request_time_sync_body, bind, raise_or, modify, ret.
  destruct (sock_exchange (io env)) as [e|data] eqn:Hio; [discriminate|].
  destruct (json_loads data) as [e|response] eqn:Hjs; [discriminate|].
  destruct (getitem response "server_time") as [e|st] eqn:Hgi;
    [discriminate|].
  destruct (py_add st ((T1 env - T0 env) / 2)) as [e|est] eqn:Hadd;
    [discriminate|].
  intros H. injection H as <- <-.
  split; [reflexivity|]. exists data, response, st.
  repeat split; assumption.
Qed.

Lemma sync_failure_client json_loads c env c' :
  request_time_sync json_loads c env = (c', None) -> c' = c.
Proof.
  unfold request_time_sync, request_time_sync_body, bind, raise_or, modify, ret.
  destruct (sock_exchange (io env)) as [e|data];
    [intros H; injection H as <-; reflexivity|].
  destruct (json_loads data) as [e|response];
    [intros H; injection H as <-; reflexivity|].
  destruct (getitem response "server_time") as [e|st];
    [intros H; injection H as <-; reflexivity|].
  destruct (py_add st ((T1 env - T0 env) / 2)) as [e|est];
    [intros H; injection H as <-; reflexivity|].
  discriminate.
Qed.

(** C2: every successful run of [request_time_sync] computes
    [RTT = T1 - T0] and rebases the clock to exactly
    [server_time + RTT / 2]. *)
Theorem request_time_sync_success_rebases json_loads c env c' r :
  request_time_sync json_loads c env = (c', Some r) ->
  rebased_to_estimate json_loads env c' r.
Proof. apply sync_success_result. Qed.

Lemma request_time_sync_success_rebases_witness :
  rebased_to_estimate c2_json_loads c2_env
    (fst (request_time_sync c2_json_loads c2_client c2_env))
    (T1 c2_env - T0 c2_env).
Proof.
  apply (request_time_sync_success_rebases c2_json_loads c2_client c2_env).
  reflexivity.
Defined.


(** C3: a run of [request_time_sync] that fails (a socket call raises, the
    reply does not parse, has no ["server_time"], or that value does not
    add to a float) returns [None] instead of raising, and leaves the client
    object, hence its pair [(R_base, L_base)], exactly as it was. *)
Theorem request_time_sync_failure_unchanged json_loads c env c' :
  request_time_sync json_loads c env = (c', None) ->
  c' = c /\ (R_base c', L_base c') = (R_base c, L_base c).
Proof.
  intros H. apply sync_failure_client in H. subst c'. auto.
Qed.

Lemma request_time_sync_failure_unchanged_witness :
  fst (request_time_sync c2_json_loads c2_client c3_env) = c2_client /\
  (R_base (fst (request_time_sync c2_json_loads c2_client c3_env)),
   L_base (fst (request_time_sync c2_json_loads c2_client c3_env))) =
  (R_base c2_client, L_base c2_client).
Proof.
  apply (request_time_sync_failure_unchanged c2_json_loads c2_client c3_env).
  reflexivity.
Defined.

(** C8 (counterexample): with [T0 = 0] and [T1 = 2] the call returns [2],
    the full round trip, not [RTT / 2 = 1]. *)
Lemma request_time_sync_return_counterexample : ~ returns_one_way_delay.
Proof.
  intro H.
  assert (Hr : snd (request_time_sync c2_json_loads c2_client c8_env) = Some 2)
    by reflexivity.
  specialize (H c2_json_loads c2_client c8_env
                (fst (request_time_sync c2_json_loads c2_client c8_env)) 2).
  vm_compute in H. specialize (H eq_refl). discriminate H.
Qed.

(** C8 (amended): a successful run returns the full round-trip time
    [T1 - T0] as its only result; no offset is returned. *)
Theorem request_time_sync_returns_rtt json_loads c env c' r :
  request_time_sync json_loads c env = (c', Some r) ->
  r = T1 env - T0 env.
Proof.
  intros H. apply (sync_success_result json_loads c env c' r H).
Qed.

Lemma request_time_sync_returns_rtt_witness :
  2 = T1 c8_env - T0 c8_env.
Proof.
  apply (request_time_sync_returns_rtt c2_json_loads c2_client c8_env
           (fst (request_time_sync c2_json_loads c2_client c8_env))).
  reflexivity.
Defined.

(** ** C5, C6: the drifting clock between rebases *)

(** C5: reading the clock at the very reference instant of the rebase
    returns the rebase argument, for [ClockClient] and for [DriftClock]. *)
Theorem rebase_then_now (c : ClockClient) (d : DriftClock) (t v : Q) :
  get_local_time (update_local_clock c t v) t == v /\
  dc_get_local_time (dc_set_local_time d t v) t == v.
Proof.
  unfold get_local_time, update_local_clock, dc_get_local_time,
    dc_set_local_time; simpl. split; ring.
Qed.

(** C6: with [rho > -1] and no rebase in between, a later reading of the
    reference clock gives a local time at least as large, for
    [ClockClient] and for [DriftClock]. *)
Theorem now_monotone (c : ClockClient) (d : DriftClock) (t1 t2 : Q) :
  -1 < rho c -> -1 < dc_rho d -> t1 <= t2 ->
  get_local_time c t1 <= get_local_time c t2 /\
  dc_get_local_time d t1 <= dc_get_local_time d t2.
Proof.
  intros Hc Hd Ht. unfold get_local_time, dc_get_local_time.
  split; apply Qplus_le_r; apply Qmult_le_compat_r; lra.
Qed.

Lemma now_monotone_witness :
  get_local_time c2_client 0 <= get_local_time c2_client 1 /\
  dc_get_local_time (mkDriftClock (1 # 1000) 0 0) 0 <=
    dc_get_local_time (mkDriftClock (1 # 1000) 0 0) 1.
Proof.
  apply (now_monotone c2_client (mkDriftClock (1 # 1000) 0 0) 0 1);
    vm_compute; try reflexivity; discriminate.
Defined.

(** ** C7: the driftless cadence *)

(** C7 (counterexample): with [rho = 0], [ClockClient] returns the duration
    itself: [10] for a run of [10] s, [20] for a run of [20] s. *)
Lemma driftless_interval_counterexample : ~ driftless_interval_fixed.
Proof.
  intro H. specialize (H c7_client 10 20 ltac:(vm_compute; reflexivity)).
  vm_compute in H. discriminate H.
Qed.

(** C7 (amended): below the threshold [1e-12], [ClockClient] returns the
    run duration (a single synchronisation at start); the [network.py]
    [Client], below its threshold [1e-10], returns the constant [5.0],
    whatever the duration and the budget. *)
Theorem driftless_interval (c : ClockClient) (r e d1 d2 : Q) :
  (Qabs (rho c) < 1 # 1000000000000 ->
   calculate_sync_interval c = duration c) /\
  (Qabs r < 1 # 10000000000 ->
   client_calculate_sync_interval r e d1 = 5 /\
   client_calculate_sync_interval r e d1 = client_calculate_sync_interval r e d2).
Proof.
  split; intro H.
  - unfold calculate_sync_interval. qcase E; [reflexivity|].
    exfalso. apply (Qlt_not_le _ _ H E).
  - unfold client_calculate_sync_interval.
    destruct (Qlt_bool (Qabs r) (1 # 10000000000)) eqn:E.
    + split; reflexivity.
    + apply Qlt_bool_false in E. exfalso. apply (Qlt_not_le _ _ H E).
Qed.

Lemma driftless_interval_witness :
  calculate_sync_interval c7_client = duration c7_client /\
  client_calculate_sync_interval 0 1 10 = 5 /\
  client_calculate_sync_interval 0 1 10 = client_calculate_sync_interval 0 1 20.
Proof.
  split.
  - apply (proj1 (driftless_interval c7_client 0 1 10 20)).
    vm_compute. reflexivity.
  - apply (proj2 (driftless_interval c7_client 0 1 10 20)).
    vm_compute. reflexivity.
Defined.

(** ** C9: no bound on the wait for the reply *)

Lemma recv_never_replies n w :
  recv_run client_sock_timeout Never_replies n (Waiting w) = Waiting (n + w).
Proof.
  revert w. induction n as [|n IH]; intro w; [reflexivity|].
  simpl. rewrite IH. f_equal. lia.
Qed.

Lemma recv_returned t p n r : recv_run t p n (Returned r) = Returned r.
Proof. induction n as [|n IH]; [reflexivity|exact IH]. Qed.

Lemma recv_replies k d n w :
  (k <= w + n)%nat ->
  recv_run client_sock_timeout (Replies_after k d) (S n) (Waiting w) =
    Returned (inr d).
Proof.
  revert w. induction n as [|n IH]; intros w Hk; simpl.
  - replace (Nat.leb k w) with true
      by (symmetry; apply Nat.leb_le; lia). reflexivity.
  - destruct (Nat.leb k w) eqn:E.
    + apply recv_returned.
    + apply IH. lia.
Qed.

(** C9 (counterexample): against a peer that never replies, [recv] is
    still waiting after any number of ticks. *)
Lemma recv_unbounded_counterexample : ~ recv_bounded.
Proof.
  intros [B HB]. destruct (HB Never_replies) as [r Hr].
  rewrite recv_never_replies in Hr. discriminate Hr.
Qed.

(** C9 (amended): the client socket has no timeout; a reply that arrives
    after [k] ticks is returned, and against a peer that never replies the
    call keeps waiting forever. *)
Theorem recv_blocks_without_timeout :
  client_sock_timeout = None /\
  (forall n, recv_run client_sock_timeout Never_replies n (Waiting 0) =
             Waiting n) /\
  (forall k d n, (k <= n)%nat ->
     recv_run client_sock_timeout (Replies_after k d) (S n) (Waiting 0) =
       Returned (inr d)).
Proof.
  split; [reflexivity|]. split.
  - intro n. rewrite recv_never_replies. f_equal. lia.
  - intros k d n Hk. apply recv_replies. lia.
Qed.

Lemma recv_blocks_without_timeout_witness :
  recv_run client_sock_timeout (Replies_after 2 "time_resp") 4 (Waiting 0) =
    Returned (inr "time_resp"%string).
Proof.
  apply (proj2 (proj2 recv_blocks_without_timeout) 2%nat "time_resp"%string 3%nat).
  lia.
Defined.

(** ** C10: the [run] loop after a failed attempt *)

Lemma request_time_sync_duration json_loads c env :
  duration (fst (request_time_sync json_loads c env)) = duration c /\
  rho (fst (request_time_sync json_loads c env)) = rho c.
Proof.
  unfold request_time_sync, request_time_sync_body, bind, raise_or, modify, ret.
  destruct (sock_exchange (io env)) as [e|data]; [auto|].
  destruct (json_loads data) as [e|response]; [auto|].
  destruct (getitem response "server_time") as [e|st]; [auto|].
  destruct (py_add st ((T1 env - T0 env) / 2)) as [e|est]; auto.
Qed.

Lemma loop_body_duration json_loads st tk :
  duration (rs_client (fst (loop_body json_loads st tk))) =
  duration (rs_client st).
Proof.
  unfold loop_body.
  destruct (Qle_bool _ _); [|reflexivity].
  pose proof (request_time_sync_duration json_loads (rs_client st) (tk_sync tk))
    as [Hd _].
  destruct (request_time_sync json_loads (rs_client st) (tk_sync tk)) as [c1 r].
  exact Hd.
Qed.

(** The loop runs as long as its condition on the reference clock holds,
    whatever the outcome of the attempts. *)
Lemma run_loop_iterations json_loads real_start_time st ticks :
  List.length (snd (run_loop json_loads real_start_time st ticks)) =
  iterations real_start_time (duration (rs_client st)) ticks.
Proof.
  revert st. induction ticks as [|tk rest IH]; intro st; [reflexivity|].
  simpl. destruct (Qlt_bool _ _); [|reflexivity].
  pose proof (loop_body_duration json_loads st tk) as Hd.
  destruct (loop_body json_loads st tk) as [st' a]. simpl in Hd.
  specialize (IH st'). rewrite Hd in IH.
  destruct (run_loop json_loads real_start_time st' rest) as [stf log].
  simpl. f_equal. exact IH.
Qed.

Lemma Qabs_minus_self x : Qabs (x - x) <= 1 # 10.
Proof.
  setoid_replace (x - x) with 0 by ring. discriminate.
Qed.

Lemma reachable_settled json_loads st :
  reachable json_loads st -> interval_settled st.
Proof.
  unfold interval_settled. induction 1 as [c env ta|st tk _ IH].
  - unfold run_start.
    destruct (request_time_sync json_loads c env) as [c1 r].
    apply Qabs_minus_self.
  - unfold loop_body.
    destruct (Qle_bool _ _); [|exact IH].
    destruct (request_time_sync json_loads (rs_client st) (tk_sync tk)) as [c1 r].
    simpl. qcase E; [apply Qabs_minus_self|exact E].
Qed.

(** C10 (amended): after an attempt whose [request_time_sync] fails, the
    loop goes on: the client (clock anchors and measured RTT) and the
    interval are those left by the last successful synchronisation,
    [last_sync_local_time] is reset to the local time just after the failed
    attempt, the next attempt fires at the first iteration whose local time
    has advanced by the interval since the failed attempt, and the loop
    runs for as many iterations as its duration condition admits. *)
Theorem loop_after_failed_attempt json_loads st tk st' :
  reachable json_loads st ->
  loop_body json_loads st tk = (st', Some None) ->
  rs_client st' = rs_client st /\
  sync_interval st' = sync_interval st /\
  last_sync_local_time st' = get_local_time (rs_client st) (tk_after tk) /\
  (forall tk2,
     snd (loop_body json_loads st' tk2) <> None <->
     sync_interval st <=
       (tk_local tk2 - tk_after tk) * (1 + rho (rs_client st))) /\
  (forall real_start_time ticks,
     List.length (snd (run_loop json_loads real_start_time st' ticks)) =
     iterations real_start_time (duration (rs_client st)) ticks).
Proof.
  intros Hreach Hbody.
  pose proof (reachable_settled json_loads st Hreach) as Hset.
  unfold interval_settled in Hset.
  unfold loop_body in Hbody.
  destruct (Qle_bool _ _); [|discriminate Hbody].
  destruct (request_time_sync json_loads (rs_client st) (tk_sync tk))
    as [c1 r] eqn:Er.
  injection Hbody as <- ->.
  apply sync_failure_client in Er. subst c1.
  destruct (Qlt_bool (1 # 10) _) eqn:Ecl.
  { exfalso. apply Qlt_bool_true in Ecl. exact (Qlt_not_le _ _ Ecl Hset). }
  split; [reflexivity|]. split; [reflexivity|]. split; [reflexivity|].
  split.
  - intro tk2. unfold loop_body. simpl.
    set (c := rs_client st).
    assert (Heq : get_local_time c (tk_local tk2) - get_local_time c (tk_after tk)
                  == (tk_local tk2 - tk_after tk) * (1 + rho c))
      by (unfold get_local_time; ring).
    destruct (Qle_bool (sync_interval st)
                (get_local_time c (tk_local tk2) - get_local_time c (tk_after tk)))
      eqn:E.
    + apply Qle_bool_iff in E. rewrite Heq in E.
      destruct (request_time_sync json_loads c (tk_sync tk2)).
      simpl. split; [intros _; exact E|discriminate].
    + apply Qle_bool_false in E. rewrite Heq in E. simpl.
      split; [intro H; exfalso; exact (H eq_refl)|].
      intro H. exfalso. exact (Qlt_not_le _ _ E H).
  - intros real_start_time ticks.
    apply (run_loop_iterations json_loads real_start_time
             (mkRunState (rs_client st) (sync_interval st)
                (get_local_time (rs_client st) (tk_after tk))) ticks).
Qed.

(** C10 (counterexample): [rho = 0.01], [epsilon_max = 0.05]: the initial
    sync succeeds and gives the interval [3.94]; the attempt at [4.1] s
    fails. At [4.2] s the local time is [4.24] past the last successful
    sync, but only [0.101] past the failed attempt, and no attempt fires. *)
Lemma loop_after_failed_attempt_counterexample :
  ~ next_attempt_from_last_success.
Proof.
  intro H.
  specialize (H c2_json_loads c10_client c10_env0 (1 # 1000) c10_tick1 c10_tick2
                (fst (loop_body c2_json_loads c10_start c10_tick1))).
  destruct H as [_ H2]; [vm_compute; discriminate|vm_compute; reflexivity|].
  assert (Hno : snd (loop_body c2_json_loads
                       (fst (loop_body c2_json_loads c10_start c10_tick1))
                       c10_tick2) = None) by (vm_compute; reflexivity).
  apply H2; [vm_compute; discriminate|exact Hno].
Qed.

Lemma loop_after_failed_attempt_witness :
  let st' := fst (loop_body c2_json_loads c10_start c10_tick1) in
  rs_client st' = rs_client c10_start /\
  sync_interval st' = sync_interval c10_start /\
  last_sync_local_time st' =
    get_local_time (rs_client c10_start) (tk_after c10_tick1) /\
  (forall tk2,
     snd (loop_body c2_json_loads st' tk2) <> None <->
     sync_interval c10_start <=
       (tk_local tk2 - tk_after c10_tick1) * (1 + rho (rs_client c10_start))) /\
  (forall real_start_time ticks,
     List.length (snd (run_loop c2_json_loads real_start_time st' ticks)) =
     iterations real_start_time (duration (rs_client c10_start)) ticks).
Proof.
  apply (loop_after_failed_attempt c2_json_loads c10_start c10_tick1).
  - exact (reach_start c2_json_loads c10_client c10_env0 (1 # 1000)).
  - vm_compute. reflexivity.
Defined.

(** ** C4: the anchor pair under concurrent access *)

Module InterleavingFacts.
Import Interleaving.

Lemma step_code id sh th sh' th' :
  step id sh th = Some (sh', th') ->
  exists i, code th = i :: code th'.
Proof.
  unfold step. destruct (code th) as [|i rest]; [discriminate|].
  destruct i; try (destruct (holder sh); [discriminate|]);
    intros H; injection H as _ <-; eexists; reflexivity.
Qed.

Lemma step_config_total id cf cf' :
  step_config id cf = Some cf' ->
  total cf = S (total cf') /\ (id = 0 \/ id = 1)%nat.
Proof.
  unfold step_config, total. destruct id as [|[|id]]; [| |discriminate].
  - destruct (step 0 (mem cf) (reader cf)) as [[sh th]|] eqn:E; [|discriminate].
    intros H. injection H as <-. apply step_code in E as [i Hi].
    simpl. rewrite Hi. simpl. split; [lia|auto].
  - destruct (step 1 (mem cf) (writer cf)) as [[sh th]|] eqn:E; [|discriminate].
    intros H. injection H as <-. apply step_code in E as [i Hi].
    simpl. rewrite Hi. simpl. split; [lia|auto].
Qed.

Lemma run_total cf sched cf' :
  run cf sched = Some cf' ->
  total cf = (List.length sched + total cf')%nat /\
  Forall (fun i => i = 0 \/ i = 1)%nat sched.
Proof.
  revert cf. induction sched as [|id rest IH]; intros cf H.
  - injection H as ->. split; [reflexivity|constructor].
  - simpl in H. destruct (step_config id cf) as [cf1|] eqn:E; [|discriminate].
    apply step_config_total in E as [Ht Hid].
    destruct (IH cf1 H) as [Ht' Hf]. simpl. split; [lia|constructor; auto].
Qed.

Lemma in_all_schedules sched :
  Forall (fun i => i = 0 \/ i = 1)%nat sched ->
  In sched (all_schedules (List.length sched)).
Proof.
  induction 1 as [|i rest Hi _ IH]; simpl; [left; reflexivity|].
  apply in_or_app. destruct Hi as [->| ->]; [left|right];
    apply in_map; exact IH.
Qed.

Lemma finished_total cf : finished cf = true -> total cf = 0%nat.
Proof.
  unfold finished, total.
  destruct (code (reader cf)), (code (writer cf)); try discriminate.
  reflexivity.
Qed.

(** A complete run of the [DriftClock] threads is one of the
    interleavings of length [4 + 5]. *)
Lemma drift_never_torn_all :
  forallb (never_torn 0 0 5 7 (start 0 0 drift_reader (drift_writer 5 7)))
    (all_schedules 9) = true.
Proof. vm_compute. reflexivity. Qed.

(** [DriftClock]: under every schedule, a completed read returns the pair
    of before the rebase or the pair of after it. *)
Lemma drift_clock_pair_atomic sched cf :
  run (start 0 0 drift_reader (drift_writer 5 7)) sched = Some cf ->
  finished cf = true ->
  torn 0 0 5 7 cf = false.
Proof.
  intros Hrun Hfin.
  destruct (run_total _ _ _ Hrun) as [Ht Hids].
  rewrite (finished_total _ Hfin) in Ht.
  assert (Hl : List.length sched = 9%nat) by (unfold total in Ht; simpl in Ht; lia).
  pose proof (in_all_schedules sched Hids) as Hin.
  rewrite Hl in Hin.
  pose proof drift_never_torn_all as Hall.
  rewrite forallb_forall in Hall. specialize (Hall sched Hin).
  unfold never_torn in Hall. rewrite Hrun, Hfin in Hall.
  destruct (torn 0 0 5 7 cf); [discriminate|reflexivity].
Qed.

End InterleavingFacts.

(** C4 (the [client.py] clock breaks it): [ClockClient] takes no lock
    around its anchor pair. With the pair [(R_base, L_base) = (0, 0)] and a
    rebase to [(5, 7)], the schedule reader, writer, writer, reader lets
    [get_local_time] read [L_base = 0] before the rebase and [R_base = 5]
    after it: a torn pair. ([DriftClock] of [network.py], whose methods hold
    its lock, never lets this happen: [drift_clock_pair_atomic].) *)
Theorem client_anchor_pair_torn :
  exists cf,
    Interleaving.run
      (Interleaving.start 0 0 Interleaving.client_reader
         (Interleaving.client_writer 5 7)) [0; 1; 1; 0]%nat = Some cf /\
    Interleaving.finished cf = true /\
    Interleaving.read_L (Interleaving.reader cf) = Some 0 /\
    Interleaving.read_R (Interleaving.reader cf) = Some 5 /\
    Interleaving.torn 0 0 5 7 cf = true.
Proof.
  eexists. split; [reflexivity|]. vm_compute. auto.
Qed.

(** * Further properties of the code *)

(** ** Sync intervals *)

Lemma py_min_le_r a b : py_min a b <= b.
Proof. unfold py_min. qcase E; [apply Qle_refl | exact E]. Qed.

Lemma py_max_ge_l a b : a <= py_max a b.
Proof. unfold py_max. qcase E; [apply Qlt_le_weak; exact E | apply Qle_refl]. Qed.

Lemma py_max_le a b m : a <= m -> b <= m -> py_max a b <= m.
Proof. unfold py_max. qcase E; auto. Qed.

Lemma py_min_mono_l a b d : a <= b -> py_min a d <= py_min b d.
Proof. intros H. unfold py_min. qcase E1; qcase E2; lra. Qed.

Lemma py_max_mono_r a x y : x <= y -> py_max a x <= py_max a y.
Proof. intros H. unfold py_max. qcase E1; qcase E2; lra. Qed.

Lemma py_max_of_le a x : x <= a -> py_max a x = a.
Proof.
  intros H. unfold py_max. qcase E; [exfalso; apply (Qlt_not_le _ _ E H)|reflexivity].
Qed.

(** The [ClockClient] interval, outside the driftless branch, always lies
    between the floor [0.1] and [max(0.1, duration)]. *)
Theorem calculate_sync_interval_range (c : ClockClient) :
  1 # 1000000000000 <= Qabs (rho c) ->
  1 # 10 <= calculate_sync_interval c /\
  calculate_sync_interval c <= py_max (1 # 10) (duration c).
Proof.
  intros Hr. unfold calculate_sync_interval.
  qcase E; [exfalso; apply (Qlt_not_le _ _ E Hr)|].
  split; [apply py_max_ge_l|].
  apply py_max_le; [apply py_max_ge_l|].
  apply (Qle_trans _ (duration c)); [apply py_min_le_r|].
  unfold py_max. qcase E2; lra.
Qed.

Lemma calculate_sync_interval_range_witness :
  1 # 10 <= calculate_sync_interval c2_client /\
  calculate_sync_interval c2_client <= py_max (1 # 10) (duration c2_client).
Proof.
  apply calculate_sync_interval_range. vm_compute. discriminate.
Defined.

(** A longer measured RTT never lengthens the [ClockClient] interval. *)
Theorem calculate_sync_interval_rtt_antitone (c : ClockClient) (r1 r2 : Q) :
  r1 <= r2 ->
  calculate_sync_interval (set_measured_rtt c r2) <=
  calculate_sync_interval (set_measured_rtt c r1).
Proof.
  intros Hr. unfold calculate_sync_interval, network_error, max_network_delay.
  simpl. qcase E; [apply Qle_refl|].
  assert (Hpos : 0 < Qabs (rho c)) by lra.
  set (A1 := epsilon_max c - r1 * (3 # 2) / 2).
  set (A2 := epsilon_max c - r2 * (3 # 2) / 2).
  assert (HA : A2 <= A1).
  { unfold A1, A2. apply Qplus_le_compat; [apply Qle_refl|].
    apply Qopp_le_compat. unfold Qdiv.
    apply Qmult_le_compat_r; [|discriminate].
    apply Qmult_le_compat_r; [exact Hr|discriminate]. }
  destruct (Qle_bool A1 0) eqn:E1;
    [apply Qle_bool_iff in E1 | apply Qle_bool_false in E1];
  (destruct (Qle_bool A2 0) eqn:E2;
    [apply Qle_bool_iff in E2 | apply Qle_bool_false in E2]).
  - apply Qle_refl.
  - exfalso. lra.
  - rewrite py_max_of_le by apply py_min_le_l. apply py_max_ge_l.
  - apply py_max_mono_r, py_min_mono_l.
    apply Qmult_le_compat_r; [|discriminate].
    unfold Qdiv. apply Qmult_le_compat_r; [exact HA|].
    apply Qlt_le_weak, Qinv_lt_0_compat. exact Hpos.
Qed.

Lemma calculate_sync_interval_rtt_antitone_witness :
  calculate_sync_interval (set_measured_rtt c2_client (1 # 100)) <=
  calculate_sync_interval (set_measured_rtt c2_client (1 # 1000)).
Proof.
  apply calculate_sync_interval_rtt_antitone. discriminate.
Defined.

(** The [network.py] interval, outside the driftless branch, lies in
    [[0.5, max(10, duration / 2)]], and either keeps the drift error
    [|rho| * interval] within half the budget or is the floor [0.5]. *)
Theorem client_calculate_sync_interval_range (r e d : Q) :
  1 # 10000000000 <= Qabs r ->
  1 # 2 <= client_calculate_sync_interval r e d /\
  client_calculate_sync_interval r e d <= py_max 10 (d / 2) /\
  (Qabs r * client_calculate_sync_interval r e d <= e / 2 \/
   client_calculate_sync_interval r e d = 1 # 2).
Proof.
  intros Hr. unfold client_calculate_sync_interval.
  qcase E; [exfalso; apply (Qlt_not_le _ _ E Hr)|].
  assert (Hpos : 0 < Qabs r) by lra.
  assert (H10 : 10 <= py_max 10 (d / 2)) by apply py_max_ge_l.
  split; [apply py_max_ge_l|]. split.
  - apply py_max_le; [lra|apply py_min_le_r].
  - destruct (py_max_cases (1 # 2) (py_min (e / (2 * Qabs r)) (py_max 10 (d / 2))))
      as [[_ ->]|[_ ->]]; [left|right; reflexivity].
    assert (Hs : Qabs r * (e / (2 * Qabs r)) == e / 2).
    { field. intro H0. rewrite H0 in Hpos. discriminate Hpos. }
    rewrite <- Hs. rewrite !(Qmult_comm (Qabs r)).
    apply Qmult_le_compat_r; [apply py_min_le_l|lra].
Qed.

Lemma client_calculate_sync_interval_range_witness :
  1 # 2 <= client_calculate_sync_interval (1 # 1000) (1 # 20) 20 /\
  client_calculate_sync_interval (1 # 1000) (1 # 20) 20 <= py_max 10 (20 / 2) /\
  (Qabs (1 # 1000) * client_calculate_sync_interval (1 # 1000) (1 # 20) 20
     <= (1 # 20) / 2 \/
   client_calculate_sync_interval (1 # 1000) (1 # 20) 20 = 1 # 2).
Proof.
  apply client_calculate_sync_interval_range. vm_compute. discriminate.
Defined.

(** ** [network.py]: [Client.request_time_sync] and [sync_thread] *)

(** A successful [Client.request_time_sync] rebases the drifting clock and
    the actual-time baseline to the same estimate [server_time + RTT / 2]
    (RTT from the two [monotonic()] readings), stamped with their own
    readings, and keeps the drift ratio. *)
Theorem client_request_time_sync_success json_loads c env c' :
  client_request_time_sync json_loads c env = (c', true) ->
  dc_L_base (clock c') = actual_time_base c' /\
  dc_R_base (clock c') = nT_clock env /\
  actual_time_mono_base c' = nT_actual env /\
  dc_rho (clock c') = dc_rho (clock c) /\
  exists data response server_time,
    sock_exchange (nio env) = inr data /\
    json_loads data = inr response /\
    getitem response "server_time" = inr server_time /\
    py_add server_time ((nT1 env - nT0 env) / 2) = inr (actual_time_base c').
Proof.
  unfold client_request_time_sync.
  destruct (sock_exchange (nio env)) as [e|data] eqn:Hio; [discriminate|].
  destruct (json_loads data) as [e|response] eqn:Hjs; [discriminate|].
  destruct (getitem response "server_time") as [e|st] eqn:Hgi; [discriminate|].
  destruct (py_add st ((nT1 env - nT0 env) / 2)) as [e|est] eqn:Hadd;
    [discriminate|].
  intros H. injection H as <-. simpl.
  repeat split; try reflexivity. exists data, response, st. auto.
Qed.

Definition c_net_client : NetClient :=
  {| clock := mkDriftClock (1 # 1000) 0 0; actual_time_base := 0;
     actual_time_mono_base := 0 |}.

Definition c_net_env_ok : NetSyncEnv :=
  {| nT0 := 1; nT1 := 1 + (1 # 1000); nT_clock := 1 + (1 # 1000);
     nT_actual := 1 + (1 # 1000); nio := Received "time_resp 250" |}.

Definition c_net_env_fail : NetSyncEnv :=
  {| nT0 := 1; nT1 := 1; nT_clock := 1; nT_actual := 1;
     nio := Recv_raises ConnectionResetError |}.

Lemma client_request_time_sync_success_witness :
  exists c', client_request_time_sync c2_json_loads c_net_client c_net_env_ok
             = (c', true) /\
  dc_L_base (clock c') = actual_time_base c' /\
  dc_R_base (clock c') = nT_clock c_net_env_ok /\
  actual_time_mono_base c' = nT_actual c_net_env_ok /\
  dc_rho (clock c') = dc_rho (clock c_net_client) /\
  exists data response server_time,
    sock_exchange (nio c_net_env_ok) = inr data /\
    c2_json_loads data = inr response /\
    getitem response "server_time" = inr server_time /\
    py_add server_time ((nT1 c_net_env_ok - nT0 c_net_env_ok) / 2)
      = inr (actual_time_base c').
Proof.
  eexists. split; [vm_compute; reflexivity|].
  apply (client_request_time_sync_success c2_json_loads c_net_client
           c_net_env_ok). vm_compute. reflexivity.
Defined.

(** A failed [Client.request_time_sync] (it returns [False]) leaves the
    client, its drifting clock and its actual-time baseline as they were. *)
Theorem client_request_time_sync_failure json_loads c env c' :
  client_request_time_sync json_loads c env = (c', false) -> c' = c.
Proof.
  unfold client_request_time_sync.
  destruct (sock_exchange (nio env)) as [e|data];
    [intros H; injection H; auto|].
  destruct (json_loads data) as [e|response];
    [intros H; injection H; auto|].
  destruct (getitem response "server_time") as [e|st];
    [intros H; injection H; auto|].
  destruct (py_add st ((nT1 env - nT0 env) / 2)) as [e|est];
    [intros H; injection H; auto|].
  discriminate.
Qed.

Lemma client_request_time_sync_failure_witness :
  client_request_time_sync c2_json_loads c_net_client c_net_env_fail
    = (c_net_client, false) /\ c_net_client = c_net_client.
Proof.
  split; [vm_compute; reflexivity|].
  apply (client_request_time_sync_failure c2_json_loads c_net_client
           c_net_env_fail). vm_compute. reflexivity.
Defined.

(** The loop of [sync_thread] keeps [next_sync] on the grid
    [start_time + sync_count * sync_interval]. *)
Lemma sync_loop_grid json_loads I d s ticks :
  forall c count next cf n log,
  next == s + inject_Z (Z.of_nat count) * I ->
  sync_loop json_loads I d s c count next ticks = (cf, n, log) ->
  n = (count + List.length log)%nat /\
  forall j a, nth_error log j = Some a ->
    s + inject_Z (Z.of_nat (count + j)) * I <= a /\ a - s < d.
Proof.
  induction ticks as [|[t env] rest IH];
    intros c count next cf n log Hnext H; simpl in H.
  - injection H as <- <- <-. split; [simpl; lia|].
    intros [|j] a Ha; discriminate.
  - destruct (Qle_bool d (t - s)) eqn:E1.
    + injection H as <- <- <-. split; [simpl; lia|].
      intros [|j] a Ha; discriminate.
    + destruct (Qle_bool next t) eqn:E2.
      * destruct (sync_loop _ _ _ _ _ _ _ rest) as [[cf' n'] log'] eqn:Er.
        injection H as <- <- <-.
        eapply IH in Er; [|apply Qeq_refl].
        destruct Er as [Hn Hlog].
        split; [simpl; lia|].
        intros [|j] a Ha; simpl in Ha.
        -- injection Ha as <-. rewrite Nat.add_0_r, <- Hnext.
           apply Qle_bool_imp_le in E2. split; [exact E2|].
           apply Qle_bool_false in E1. exact E1.
        -- replace (count + S j)%nat with (S count + j)%nat by lia.
           exact (Hlog j a Ha).
      * exact (IH _ _ _ _ _ _ Hnext H).
Qed.

(** [Client.sync_thread]: [sync_count] ends at one (the initial sync) plus
    the number of loop attempts, whatever their outcome, and the [j]-th
    loop attempt (from 0) happens no earlier than
    [start_time + (j + 1) * sync_interval] and before the duration has
    elapsed: late or failed attempts do not shift the schedule. *)
Theorem sync_thread_schedule json_loads I d c env0 s ticks cf n log :
  sync_thread json_loads I d c env0 s ticks = (cf, n, log) ->
  n = S (List.length log) /\
  forall j a, nth_error log j = Some a ->
    s + inject_Z (Z.of_nat (S j)) * I <= a /\ a - s < d.
Proof.
  unfold sync_thread. intros H.
  apply sync_loop_grid in H; [exact H|].
  unfold inject_Z. simpl. ring.
Qed.

Definition c_net_ticks : list (Q * NetSyncEnv) :=
  [(3, c_net_env_ok); (6, c_net_env_fail); (8, c_net_env_ok);
   (12, c_net_env_ok); (16, c_net_env_ok); (21, c_net_env_ok)].

Lemma sync_thread_schedule_witness :
  exists cf n log,
  sync_thread c2_json_loads 5 20 c_net_client c_net_env_ok 0 c_net_ticks
    = (cf, n, log) /\
  (n = S (List.length log) /\
   forall j a, nth_error log j = Some a ->
     0 + inject_Z (Z.of_nat (S j)) * 5 <= a /\ a - 0 < 20).
Proof.
  do 3 eexists. split; [vm_compute; reflexivity|].
  eapply (sync_thread_schedule c2_json_loads 5 20 c_net_client c_net_env_ok 0
            c_net_ticks). vm_compute. reflexivity.
Defined.

(** ** [network.py]: [Client.logging_thread] *)

(** [l] is strictly increasing and every element is above [lo]. *)
Fixpoint incr_from (lo : Z) (l : list Z) : Prop :=
  match l with
  | [] => True
  | k :: rest => (lo < k)%Z /\ incr_from k rest
  end.

Lemma net_log_loop_seconds d duration start_wall start_mono ticks :
  forall last_logged,
  exists ks, incr_from last_logged ks /\
    map fst (net_log_loop d duration start_wall start_mono last_logged ticks)
    = map (fun k => start_wall + inject_Z k) ks.
Proof.
  induction ticks as [|tk rest IH]; intros last; simpl.
  - exists []. split; constructor.
  - destruct (Qlt_bool (lt_cond tk - start_mono) duration).
    + destruct (Z.ltb last (py_int (lt_elapsed tk - start_mono))) eqn:E.
      * destruct (IH (py_int (lt_elapsed tk - start_mono))) as [ks [Hk Hm]].
        exists (py_int (lt_elapsed tk - start_mono) :: ks).
        simpl. split; [split; [apply Z.ltb_lt; exact E | exact Hk]|].
        rewrite Hm. reflexivity.
      * apply IH.
    + exists []. split; constructor.
Qed.

(** [Client.logging_thread] of [network.py]: the actual time of every row
    is [start_wall_time] plus a whole number [k] of seconds, the [k] of the
    rows strictly increase and start at 1: second 0 is never logged and no
    second is logged twice. *)
Theorem net_logging_thread_rows d duration start_wall start_mono ticks :
  exists ks, incr_from 0 ks /\
    map fst (net_logging_thread d duration start_wall start_mono ticks)
    = map (fun k => start_wall + inject_Z k) ks.
Proof. apply net_log_loop_seconds. Qed.

(** ** [client.py]: the catch-up of [logging_thread] *)

Lemma catch_up_no_stop c should reads fuel :
  forall e e' rows,
  fuel = Z.to_nat (should - e) ->
  catch_up c should false reads fuel e = (e', rows) ->
  e' = Z.max e should /\ Z.of_nat (List.length rows) = (e' - e)%Z.
Proof.
  induction fuel as [|f IH]; intros e e' rows Hf H; simpl in H.
  - injection H as <- <-. simpl. lia.
  - assert (Hlt : (e < should)%Z) by lia.
    apply Z.ltb_lt in Hlt. rewrite Hlt in H. simpl in H.
    destruct (reads e) as [a r].
    destruct (catch_up c should false reads f (e + 1)) as [e2 more] eqn:Er.
    injection H as <- <-.
    apply Z.ltb_lt in Hlt.
    destruct (IH (e + 1)%Z e2 more ltac:(lia) Er) as [He Hl].
    simpl. lia.
Qed.

Lemma catch_up_stop c should reads fuel e :
  catch_up c should true reads fuel e = (e, []).
Proof.
  destruct fuel; simpl; [reflexivity|].
  rewrite andb_false_r. reflexivity.
Qed.

(** One log tick of [ClockClient.logging_thread] without a stop request
    catches up to [should_have_logged = int(wall_now - aligned) + 1]: the
    count ends at the larger of that and one more than before, and
    [expected_log_count] grows by exactly the number of samples logged. *)
Theorem log_tick_catch_up c aligned reads wall_now e e' rows :
  log_tick c aligned false reads wall_now e = (e', rows) ->
  e' = Z.max (e + 1) (py_int (wall_now - inject_Z aligned) + 1) /\
  Z.of_nat (List.length rows) = (e' - e)%Z.
Proof.
  unfold log_tick. destruct (reads e) as [a r].
  destruct (catch_up c (py_int (wall_now - inject_Z aligned) + 1) false reads
              (Z.to_nat (py_int (wall_now - inject_Z aligned) + 1 - (e + 1)))
              (e + 1)) as [e2 more] eqn:Er.
  intros H. injection H as <- <-.
  destruct (catch_up_no_stop _ _ _ _ _ _ _ eq_refl Er) as [He Hl].
  simpl. lia.
Qed.

Definition c_log_reads (k : Z) : Q * Q := (inject_Z k, inject_Z k).

Lemma log_tick_catch_up_witness :
  exists e' rows,
  log_tick c2_client 100 false c_log_reads (103 + (1 # 2)) 1 = (e', rows) /\
  (e' = Z.max (1 + 1) (py_int ((103 + (1 # 2)) - inject_Z 100) + 1) /\
   Z.of_nat (List.length rows) = (e' - 1)%Z).
Proof.
  do 2 eexists. split; [vm_compute; reflexivity|].
  apply (log_tick_catch_up c2_client 100 c_log_reads (103 + (1 # 2)) 1).
  vm_compute. reflexivity.
Defined.

(** With the stop event set, a log tick logs exactly one sample and the
    count grows by one, however far behind the wall clock it is. *)
Theorem log_tick_stop c aligned reads wall_now e :
  fst (log_tick c aligned true reads wall_now e) = (e + 1)%Z /\
  List.length (snd (log_tick c aligned true reads wall_now e)) = 1%nat.
Proof.
  unfold log_tick. destruct (reads e) as [a r].
  rewrite catch_up_stop. split; reflexivity.
Qed.

(** ** [client.py]: the sample buffer *)

Lemma apply_ops_rows fmt3 ops : forall st,
  csv_rows (apply_ops fmt3 st ops) ++ map (fmt_row fmt3) (log_buffer (apply_ops fmt3 st ops))
  = csv_rows st ++ map (fmt_row fmt3) (log_buffer st ++ logged ops).
Proof.
  unfold apply_ops.
  induction ops as [|op rest IH]; intros st; simpl.
  - rewrite app_nil_r. reflexivity.
  - rewrite IH. destruct op as [a l|]; simpl.
    + rewrite <- app_assoc. reflexivity.
    + unfold flush_logs. destruct (log_buffer st) as [|x xs] eqn:Eb.
      * rewrite Eb. reflexivity.
      * simpl. rewrite map_app, <- app_assoc. reflexivity.
Qed.

(** [log_time] and [flush_logs] in any order, then the final
    [flush_logs] of [run]: the buffer ends empty and the CSV holds the rows
    it held, then the samples that were buffered, then every sample logged,
    each once and in the order logged. *)
Theorem flush_logs_writes_all fmt3 st ops :
  log_buffer (flush_logs fmt3 (apply_ops fmt3 st ops)) = [] /\
  csv_rows (flush_logs fmt3 (apply_ops fmt3 st ops))
  = csv_rows st ++ map (fmt_row fmt3) (log_buffer st ++ logged ops).
Proof.
  rewrite <- apply_ops_rows.
  destruct (apply_ops fmt3 st ops) as [buf rows].
  unfold flush_logs. simpl.
  destruct buf as [|x xs]; simpl; [rewrite app_nil_r|]; auto.
Qed.

(** ** [time_server.py] *)

Lemma handle_connection_replied_shape decode_loads data now r :
  handle_connection decode_loads data now = Srv_replied r ->
  r = JObj [("type"%string, JStr "time_resp"); ("server_time"%string, JNum now)] /\
  data <> ""%string /\
  exists kvs, decode_loads data = inr (JObj kvs) /\
              assoc "type" kvs = Some (JStr "time_req").
Proof.
  unfold handle_connection.
  destruct (String.eqb data "") eqn:Ed; [discriminate|].
  apply String.eqb_neq in Ed.
  destruct (decode_loads data) as [e|m] eqn:Hd.
  - destruct e; discriminate.
  - destruct m as [| | | | |kvs]; try discriminate.
    destruct (assoc "type" kvs) as [[| | |t| |]|] eqn:Ht; try discriminate.
    destruct (String.eqb t "time_req") eqn:Et; [|discriminate].
    apply String.eqb_eq in Et. subst t.
    intros H. injection H as <-. split; [reflexivity|]. split; [exact Ed|].
    exists kvs. auto.
Qed.

(** The server answers only a non-empty message that decodes to a dict
    whose ["type"] is ["time_req"], and its answer is
    [{"type": "time_resp", "server_time": now}] with [now] the reading of
    [time.time()] taken for this connection. *)
Theorem handle_connection_reply decode_loads data now r :
  handle_connection decode_loads data now = Srv_replied r ->
  r = JObj [("type"%string, JStr "time_resp"); ("server_time"%string, JNum now)] /\
  data <> ""%string /\
  exists kvs, decode_loads data = inr (JObj kvs) /\
              assoc "type" kvs = Some (JStr "time_req").
Proof. apply handle_connection_replied_shape. Qed.

(** A decoder for the examples: ["req"] is a time request, ["list"] the
    array [[]], ["str"] the string ["time_req"], ["bad"] invalid UTF-8,
    anything else invalid JSON. *)
Definition c_decode (s : string) : exn + json :=
  if String.eqb s "req" then inr (JObj [("type"%string, JStr "time_req")])
  else if String.eqb s "list" then inr (JList [])
  else if String.eqb s "str" then inr (JStr "time_req")
  else if String.eqb s "bad" then inl UnicodeDecodeError
  else inl JSONDecodeError.

Lemma handle_connection_reply_witness :
  handle_connection c_decode "req" 7 =
    Srv_replied (JObj [("type"%string, JStr "time_resp");
                       ("server_time"%string, JNum 7)]) /\
  (JObj [("type"%string, JStr "time_resp"); ("server_time"%string, JNum 7)]
     = JObj [("type"%string, JStr "time_resp"); ("server_time"%string, JNum 7)] /\
   "req"%string <> ""%string /\
   exists kvs, c_decode "req" = inr (JObj kvs) /\
               assoc "type" kvs = Some (JStr "time_req")).
Proof.
  split; [vm_compute; reflexivity|].
  apply (handle_connection_reply c_decode "req" 7). vm_compute. reflexivity.
Defined.

(** An empty message and data that [json.loads(data.decode())] rejects
    with [JSONDecodeError] or [UnicodeDecodeError] are dropped: no reply,
    and the server keeps running. *)
Theorem handle_connection_ignores_bad_data decode_loads data now :
  data = ""%string \/ decode_loads data = inl JSONDecodeError \/
  decode_loads data = inl UnicodeDecodeError ->
  handle_connection decode_loads data now = Srv_ignored.
Proof.
  unfold handle_connection.
  destruct (String.eqb data "") eqn:Ed; [reflexivity|].
  apply String.eqb_neq in Ed.
  intros [H|[H|H]]; [contradiction|rewrite H; reflexivity..].
Qed.

Lemma handle_connection_ignores_bad_data_witness :
  (""%string = ""%string \/ c_decode "bad" = inl JSONDecodeError \/
   c_decode "bad" = inl UnicodeDecodeError) /\
  handle_connection c_decode "bad" 7 = Srv_ignored.
Proof.
  split; [right; right; vm_compute; reflexivity|].
  apply (handle_connection_ignores_bad_data c_decode "bad" 7).
  right. right. vm_compute. reflexivity.
Defined.

(** Valid JSON that is not an object (a list, a string, a number, ...)
    makes [message.get] raise [AttributeError], which nothing catches: the
    server crashes. *)
Theorem handle_connection_non_object_crashes decode_loads data now m :
  data <> ""%string ->
  decode_loads data = inr m ->
  (forall kvs, m <> JObj kvs) ->
  handle_connection decode_loads data now = Srv_crashed AttributeError.
Proof.
  intros Ed Hd Hm. unfold handle_connection.
  apply String.eqb_neq in Ed. rewrite Ed, Hd.
  destruct m as [| | | | |kvs]; try reflexivity.
  exfalso. exact (Hm kvs eq_refl).
Qed.

Lemma handle_connection_non_object_crashes_witness :
  ("list"%string <> ""%string /\ c_decode "list" = inr (JList []) /\
   (forall kvs, JList [] <> JObj kvs)) /\
  handle_connection c_decode "list" 7 = Srv_crashed AttributeError.
Proof.
  assert (H1 : "list"%string <> ""%string) by discriminate.
  assert (H2 : c_decode "list" = inr (JList [])) by (vm_compute; reflexivity).
  assert (H3 : forall kvs, JList [] <> JObj kvs) by discriminate.
  split; [auto|].
  exact (handle_connection_non_object_crashes c_decode "list" 7 (JList []) H1 H2 H3).
Defined.

(** The accept loop handles the connections in order, one result each,
    and stops at the first crash: a crash can only be the last result, and
    when fewer connections were handled than arrived, the last one handled
    crashed. *)
Theorem serve_stops_at_crash decode_loads conns :
  let rs := serve decode_loads conns in
  (forall i r, nth_error rs i = Some r ->
     exists data now, nth_error conns i = Some (data, now) /\
                      handle_connection decode_loads data now = r) /\
  (forall i e, nth_error rs i = Some (Srv_crashed e) -> S i = List.length rs) /\
  (List.length rs = List.length conns \/
   exists e, nth_error rs (pred (List.length rs)) = Some (Srv_crashed e)).
Proof.
  induction conns as [|[data now] rest IH]; simpl.
  - split; [intros [|i] r H; discriminate|].
    split; [intros [|i] e H; discriminate|]. left. reflexivity.
  - destruct IH as [IH1 [IH2 IH3]].
    destruct (handle_connection decode_loads data now) as [|resp|e0] eqn:Eh.
    3: { split; [|split].
         - intros [|i] r H; simpl in H; [|destruct i; discriminate].
           injection H as <-. exists data, now. auto.
         - intros [|i] e H; simpl in H; [reflexivity|destruct i; discriminate].
         - right. exists e0. reflexivity. }
    all: split; [|split].
    all: try (intros [|i] r H; simpl in H;
              [injection H as <-; exists data, now; auto | exact (IH1 i r H)]).
    all: try (intros [|i] e H; simpl in H;
              [discriminate | simpl; f_equal; exact (IH2 i e H)]).
    all: destruct IH3 as [Hl|[e He]]; [left; simpl; f_equal; exact Hl|right].
    all: exists e; destruct (serve decode_loads rest) as [|x xs];
         [discriminate|exact He].
Qed.

(** ** [time_server.py]: the bind retries *)

Lemma bind_loop_spec try_bind m : forall a,
  (1 <= a)%nat -> (a + m = max_attempts)%nat ->
  (forall j, (1 <= j < a)%nat -> try_bind j = Bind_EADDRINUSE) ->
  match bind_loop try_bind (a :: seq (S a) m) with
  | Listening k =>
      (1 <= k <= max_attempts)%nat /\ try_bind k = Bind_ok /\
      forall j, (1 <= j < k)%nat -> try_bind j = Bind_EADDRINUSE
  | Bind_failed k =>
      (1 <= k <= max_attempts)%nat /\
      (try_bind k = Bind_other_oserror \/
       (k = max_attempts /\ try_bind k = Bind_EADDRINUSE)) /\
      forall j, (1 <= j < k)%nat -> try_bind j = Bind_EADDRINUSE
  | No_socket => False
  end.
Proof.
  induction m as [|m IH]; intros a Ha Ham Hbefore; cbn [bind_loop];
    unfold max_attempts in *; destruct (try_bind a) eqn:Ea.
  all: try (split; [lia|]; split; [auto|exact Hbefore]).
  - destruct (Nat.ltb a 5) eqn:El; [apply Nat.ltb_lt in El; lia|].
    split; [lia|]. split; [right; split; [lia|exact Ea]|exact Hbefore].
  - destruct (Nat.ltb a 5) eqn:El.
    + apply (IH (S a)); [lia|lia|].
      intros j Hj. destruct (Nat.eq_dec j a) as [->|Hne]; [exact Ea|].
      apply Hbefore. lia.
    + apply Nat.ltb_ge in El. lia.
Qed.

(** [run_time_server]'s bind loop always ends with a listening socket or
    an exception, never with [server_socket = None]: it listens at the
    first attempt [k <= 5] that succeeds, every earlier attempt having met
    [EADDRINUSE]; it raises at the first other [OSError], and at attempt 5
    on [EADDRINUSE]. *)
Theorem run_time_server_bind_outcome try_bind :
  match run_time_server_bind try_bind with
  | Listening k =>
      (1 <= k <= max_attempts)%nat /\ try_bind k = Bind_ok /\
      forall j, (1 <= j < k)%nat -> try_bind j = Bind_EADDRINUSE
  | Bind_failed k =>
      (1 <= k <= max_attempts)%nat /\
      (try_bind k = Bind_other_oserror \/
       (k = max_attempts /\ try_bind k = Bind_EADDRINUSE)) /\
      forall j, (1 <= j < k)%nat -> try_bind j = Bind_EADDRINUSE
  | No_socket => False
  end.
Proof.
  apply (bind_loop_spec try_bind 4 1); [lia|reflexivity|lia].
Qed.

(** ** The server's reply read by [ClockClient.request_time_sync] *)

(** When the client receives what the server sends for a time request and
    [json.loads] reads it back as the server's dict, [request_time_sync]
    succeeds, returns the RTT and sets the local clock, at [T_rebase], to
    the server's [time.time()] reading plus half the RTT. *)
Theorem server_reply_rebases_client decode_loads json_loads c env data now r s :
  handle_connection decode_loads data now = Srv_replied r ->
  sock_exchange (io env) = inr s ->
  json_loads s = inr r ->
  exists c',
    request_time_sync json_loads c env = (c', Some (T1 env - T0 env)) /\
    L_base c' = now + (T1 env - T0 env) / 2 /\ R_base c' = T_rebase env /\
    rho c' = rho c /\ epsilon_max c' = epsilon_max c /\ duration c' = duration c.
Proof.
  intros Hh Hio Hjs.
  destruct (handle_connection_replied_shape _ _ _ _ Hh) as [-> _].
  unfold request_time_sync, request_time_sync_body, bind, raise_or, modify, ret.
  rewrite Hio, Hjs. simpl.
  eexists. split; [reflexivity|]. simpl. auto.
Qed.

Definition c_server_env : SyncEnv :=
  {| T0 := 10; T1 := 10 + (1 # 50); T_rebase := 10 + (1 # 50);
     io := Received "reply" |}.

Definition c_client_loads (_ : string) : exn + json :=
  inr (JObj [("type"%string, JStr "time_resp"); ("server_time"%string, JNum 7)]).

Lemma server_reply_rebases_client_witness :
  exists c',
    request_time_sync c_client_loads c2_client c_server_env
      = (c', Some (T1 c_server_env - T0 c_server_env)) /\
    L_base c' = 7 + (T1 c_server_env - T0 c_server_env) / 2 /\
    R_base c' = T_rebase c_server_env /\
    rho c' = rho c2_client /\ epsilon_max c' = epsilon_max c2_client /\
    duration c' = duration c2_client.
Proof.
  apply (server_reply_rebases_client c_decode c_client_loads c2_client
           c_server_env "req" 7
           (JObj [("type"%string, JStr "time_resp");
                  ("server_time"%string, JNum 7)]) "reply");
    vm_compute; reflexivity.
Defined.

(** ** [client.py]: the [run] loop *)

Lemma run_loop_reachable json_loads real_start_time ticks : forall st,
  reachable json_loads st ->
  reachable json_loads (fst (run_loop json_loads real_start_time st ticks)).
Proof.
  induction ticks as [|tk rest IH]; intros st Hst; simpl; [exact Hst|].
  destruct (Qlt_bool _ _); [|exact Hst].
  pose proof (reach_step json_loads st tk Hst) as Hr.
  destruct (loop_body json_loads st tk) as [st' a]. simpl in Hr.
  specialize (IH st' Hr).
  destruct (run_loop json_loads real_start_time st' rest) as [stf log].
  exact IH.
Qed.

(** Wherever [ClockClient.run] stops, the [sync_interval] it uses is within
    0.1 s of what [calculate_sync_interval] gives for the client's current
    RTT: the interval is recomputed after every attempt and replaced when it
    differs by more than 0.1. *)
Theorem run_interval_tracks_rtt json_loads c env t_after real_start_time ticks :
  let stf := fst (run_loop json_loads real_start_time
                    (run_start json_loads c env t_after) ticks) in
  Qabs (calculate_sync_interval (rs_client stf) - sync_interval stf) <= 1 # 10.
Proof.
  apply (reachable_settled json_loads), run_loop_reachable, reach_start.
Qed.

(** [ClockClient.run] makes one iteration per reading of [time.time()]
    until the first one at or past the duration: how many iterations run
    depends on those readings and the duration only, not on whether the
    synchronisations succeed. *)
Theorem run_loop_iteration_count json_loads real_start_time st ticks :
  List.length (snd (run_loop json_loads real_start_time st ticks)) =
  iterations real_start_time (duration (rs_client st)) ticks.
Proof. apply run_loop_iterations. Qed.
